(** * slot-fill: a shallow embedding of [src/use-slot-fill.tsx]

    The module under verification exports three things:
    - [createFill], which builds a component function carrying the
      [__SLOT_FILL__] marker;
    - [useSlots], which makes one pass over the children of a component
      and sorts them into an object keyed by slot name, plus [rest];
    - the class [SlotManager], which guards [createFill] by a fixed set
      of slot names and forwards [useSlots].

    Conventions of the embedding.
    - A JavaScript object used as a dictionary is a [gmap string _] of its
      own properties; the properties every object literal inherits from
      [Object.prototype] are listed in [Object_prototype_keys], because
      the [in] operator of the source consults them.
    - [children] is the sequence of children in the order and shape in
      which React's [Children.forEach] hands them to its callback;
      [Children.count] is the length of that sequence.
    - The two local variables [rest] and [slots] that the callback of
      [useSlots] mutates are threaded as an explicit [PassState].
    - A function object has an identity ([fn_id]); two calls of
      [createFill] give two different objects. *)

From stdpp Require Import gmap strings list fin_maps.

Open Scope string_scope.
Open Scope list_scope.

#[local] Set Warnings "-register-all".

(** ** React nodes *)

(** The body of a component function.  [FillBody] is the arrow function
    [({ children }) => <>{children}</>] of [createFill]; any other
    component is opaque. *)
Inductive FunctionBody : Type :=
| FillBody
| OtherBody (n : nat).

(** A JavaScript function object: its identity, its body, and the own
    property [__SLOT_FILL__] when it has one. *)
Record FunctionObject : Type := mkFunction {
  fn_id : nat;
  fn_body : FunctionBody;
  __SLOT_FILL__ : option string
}.

(** [element.type]: a host tag ([typeof] is ['string']), a component
    function ([typeof] is ['function']), the Fragment symbol, or an
    exotic component object such as the result of [memo]. *)
Inductive ElementType : Type :=
| HostType (tag : string)
| FunctionType (f : FunctionObject)
| FragmentType
| ExoticType (n : nat).

(** [ReactNode].  Of the props of an element only [props.children] is
    ever read by the source; an absent [children] prop reads as
    [RUndefined]. *)
Inductive ReactNode : Type :=
| RNull
| RUndefined
| RBool (b : bool)
| RString (s : string)
| RNumber (n : Z)
| RElement (type : ElementType) (props_children : ReactNode)
| RArray (items : list ReactNode).

(** JSX: [<F>content</F>]. *)
Definition jsx (f : FunctionObject) (content : ReactNode) : ReactNode :=
  RElement (FunctionType f) content.

(** Calling a component function with [{ children }].  Only the body that
    [createFill] writes is interpreted. *)
Definition call (f : FunctionObject) (children : ReactNode) : option ReactNode :=
  match fn_body f with
  | FillBody => Some (RElement FragmentType children)
  | OtherBody _ => None
  end.

(** ** Object literals *)

(** The property names an object literal [{}] inherits from
    [Object.prototype]. *)
Definition Object_prototype_keys : list string :=
  [ "constructor"; "__defineGetter__"; "__defineSetter__"; "hasOwnProperty";
    "__lookupGetter__"; "__lookupSetter__"; "isPrototypeOf";
    "propertyIsEnumerable"; "toString"; "valueOf"; "__proto__";
    "toLocaleString" ].

Definition inherited (k : string) : bool :=
  existsb (String.eqb k) Object_prototype_keys.

(** [k in o] for an object literal [o] with own properties [o]. *)
Definition js_in (k : string) (o : gmap string ReactNode) : bool :=
  match o !! k with
  | Some _ => true
  | None => inherited k
  end.

(** What reading [o[k]] gives: the own property, else the inherited
    built-in, else [undefined]. *)
Inductive JSValue : Type :=
| JSNode (n : ReactNode)
| JSBuiltin (name : string).

Definition js_get (o : gmap string ReactNode) (k : string) : JSValue :=
  match o !! k with
  | Some v => JSNode v
  | None => if inherited k then JSBuiltin k else JSNode RUndefined
  end.

(** ** createFill *)

(** [createFill(slotName)]; [fresh] is the identity of the function
    object the call allocates. *)
Definition createFill (slotName : string) (fresh : nat) : FunctionObject :=
  {| fn_id := fresh; fn_body := FillBody; __SLOT_FILL__ := Some slotName |}.

(** ** useSlots *)

Definition isValidElement (child : ReactNode) : bool :=
  match child with
  | RElement _ _ => true
  | _ => false
  end.

(** The three tests of the callback, in order: a valid element, whose
    type is a function, which has the [__SLOT_FILL__] property.  When all
    three pass the result is [(child.type.__SLOT_FILL__, child.props.children)]. *)
Definition fill_of (child : ReactNode) : option (string * ReactNode) :=
  match child with
  | RElement (FunctionType f) props_children =>
      match __SLOT_FILL__ f with
      | Some slotName => Some (slotName, props_children)
      | None => None
      end
  | _ => None
  end.

Record PassState : Type := mkPass {
  rest : list ReactNode;
  slots : gmap string ReactNode
}.

(** The callback given to [Children.forEach]. *)
Definition forEach_callback (st : PassState) (child : ReactNode) : PassState :=
  match fill_of child with
  | None => {| rest := rest st ++ [child]; slots := slots st |}
  | Some (slotName, props_children) =>
      if js_in slotName (slots st) then st
      else {| rest := rest st; slots := <[slotName := props_children]> (slots st) |}
  end.

Definition Children_count (children : list ReactNode) : nat := length children.

Definition Children_forEach (children : list ReactNode) (st : PassState) : PassState :=
  foldl forEach_callback st children.

(** [const rest = []] and [const slots = {}]. *)
Definition st0 : PassState := {| rest := []; slots := ∅ |}.

(** The function memoised by [useMemo]; the memo only avoids running it
    again for the same [children] and does not change its value. *)
Definition useSlots (children : list ReactNode) : gmap string ReactNode :=
  if Nat.eqb (Children_count children) 0 then slots st0
  else
    let st := Children_forEach children st0 in
    <["rest" := RArray (rest st)]> (slots st).

(** ** SlotManager *)

Record Error : Type := mkError { message : string }.

Inductive Result (A : Type) : Type :=
| Return (a : A)
| Throw (e : Error).
Arguments Return {A} a.
Arguments Throw {A} e.

Definition dquote : string := String (Ascii.ascii_of_nat 34) EmptyString.

Module SlotManager.

Record t : Type := mk { slots : gset string }.

Definition constructor (slots : list string) : t :=
  {| slots := list_to_set slots |}.

Definition createFill (this : t) (slotName : string) (fresh : nat)
  : Result FunctionObject :=
  if bool_decide (slotName ∈ slots this)
  then Return (createFill slotName fresh)
  else Throw {| message := "Slot " +:+ dquote +:+ slotName +:+ dquote +:+ " does not exist" |}.

Definition useSlots (this : t) (children : list ReactNode)
  : gmap string ReactNode :=
  useSlots children.

End SlotManager.

(** ** Test fixtures *)

Definition Header : FunctionObject := createFill "header" 1.
Definition Footer : FunctionObject := createFill "footer" 2.

(** ** Vocabulary of the statements *)

(** A child that fails one of the three tests of the callback. *)
Definition untagged (child : ReactNode) : bool :=
  match fill_of child with
  | None => true
  | Some _ => false
  end.

(** The nested content of the first child of [children] that is a Fill
    for slot [S]. *)
Fixpoint first_fill (S : string) (children : list ReactNode) : option ReactNode :=
  match children with
  | [] => None
  | child :: children' =>
      match fill_of child with
      | Some (slotName, props_children) =>
          if String.eqb slotName S then Some props_children
          else first_fill S children'
      | None => first_fill S children'
      end
  end.

(** Content that counts as empty: an absent [children] prop, [null], or
    an empty array. *)
Definition empty_content (c : ReactNode) : bool :=
  match c with
  | RUndefined | RNull | RArray [] => true
  | _ => false
  end.

(** Two neighbouring children that the pass treats independently of
    their order: one is a Fill and the other is not, or both are Fills
    for different slot names. *)
Definition independent (a b : ReactNode) : bool :=
  match fill_of a, fill_of b with
  | Some (s1, _), Some (s2, _) => negb (String.eqb s1 s2)
  | None, None => false
  | _, _ => true
  end.

(** ** Components of the test suite *)

(** One name of a destructuring [const { k } = slots], for a key [k] that
    [Object.prototype] does not have: the own property, else
    [undefined]. *)
Definition destructure (o : gmap string ReactNode) (k : string) : ReactNode :=
  default RUndefined (o !! k).

(** [Layout] of the first test: [header], [footer] and [rest] are read
    off [useSlots(children)] and placed in three host elements.  The
    [data-testid] attributes are props other than [children] and are not
    part of [RElement]. *)
Definition Layout (children : list ReactNode) : ReactNode :=
  let s := useSlots children in
  let header := destructure s "header" in
  let footer := destructure s "footer" in
  let rest := destructure s "rest" in
  RElement (HostType "div")
    (RArray [ RElement (HostType "header") header;
              RElement (HostType "main") rest;
              RElement (HostType "footer") footer ]).

(** [Card] of the [SlotManager] test, for the manager [manager]. *)
Definition Card (manager : SlotManager.t) (children : list ReactNode) : ReactNode :=
  let s := SlotManager.useSlots manager children in
  let header := destructure s "header" in
  let body := destructure s "body" in
  let footer := destructure s "footer" in
  let rest := destructure s "rest" in
  RElement (HostType "div")
    (RArray [ RElement (HostType "div") header;
              RElement (HostType "div") body;
              RElement (HostType "div") rest;
              RElement (HostType "div") footer ]).

(** ** Scenarios of the test suite *)

Example test_designated_slots :
  useSlots [ jsx Header (RString "H"); RString "plain-text"; jsx Footer (RString "F") ]
  = <["rest" := RArray [RString "plain-text"]]>
      (<["footer" := RString "F"]> (<["header" := RString "H"]> ∅)).
Proof. vm_compute. reflexivity. Qed.

Example test_first_header_wins :
  useSlots [ jsx Header (RString "First Header"); jsx Header (RString "Second Header") ]
  = <["rest" := RArray []]> (<["header" := RString "First Header"]> ∅).
Proof. vm_compute. reflexivity. Qed.

(** ** The pass, one child at a time *)

Lemma fill_of_jsx f content S :
  __SLOT_FILL__ f = Some S → fill_of (jsx f content) = Some (S, content).
Proof. intros Hf. unfold jsx, fill_of. by rewrite Hf. Qed.

Lemma callback_untagged st child :
  fill_of child = None →
  forEach_callback st child = {| rest := rest st ++ [child]; slots := slots st |}.
Proof. intros E. unfold forEach_callback. by rewrite E. Qed.

Lemma callback_skip st child S content :
  fill_of child = Some (S, content) → js_in S (slots st) = true →
  forEach_callback st child = st.
Proof. intros E Hin. unfold forEach_callback. by rewrite E, Hin. Qed.

Lemma callback_store st child S content :
  fill_of child = Some (S, content) → js_in S (slots st) = false →
  forEach_callback st child
  = {| rest := rest st; slots := <[S := content]> (slots st) |}.
Proof. intros E Hin. unfold forEach_callback. by rewrite E, Hin. Qed.

Lemma js_in_own (o : gmap string ReactNode) k v : o !! k = Some v → js_in k o = true.
Proof. intros H. unfold js_in. by rewrite H. Qed.

Lemma js_in_fresh (o : gmap string ReactNode) k :
  o !! k = None → js_in k o = inherited k.
Proof. intros H. unfold js_in. by rewrite H. Qed.

Lemma js_get_own (o : gmap string ReactNode) k v : o !! k = Some v → js_get o k = JSNode v.
Proof. intros H. unfold js_get. by rewrite H. Qed.

Lemma Children_forEach_cons child children st :
  Children_forEach (child :: children) st
  = Children_forEach children (forEach_callback st child).
Proof. reflexivity. Qed.

Lemma Children_forEach_app l1 l2 st :
  Children_forEach (l1 ++ l2) st = Children_forEach l2 (Children_forEach l1 st).
Proof. unfold Children_forEach. apply foldl_app. Qed.

(** The bucket grows by exactly the untagged children, in order. *)
Lemma Children_forEach_rest children : ∀ st,
  rest (Children_forEach children st) = rest st ++ List.filter untagged children.
Proof.
  induction children as [|child children IH]; intros st.
  - simpl. by rewrite app_nil_r.
  - rewrite Children_forEach_cons, IH. simpl. unfold untagged, forEach_callback.
    destruct (fill_of child) as [[S content]|] eqn:E.
    + by destruct (js_in S (slots st)).
    + simpl. by rewrite <- app_assoc.
Qed.

(** A key that is neither own nor inherited receives the first Fill
    content tagged with it; an own key is never written again. *)
Lemma Children_forEach_slots S children : ∀ st,
  inherited S = false →
  slots (Children_forEach children st) !! S
  = match slots st !! S with
    | Some v => Some v
    | None => first_fill S children
    end.
Proof.
  induction children as [|child children IH]; intros st HS.
  - simpl. by destruct (slots st !! S).
  - rewrite Children_forEach_cons, IH by done. simpl.
    unfold forEach_callback.
    destruct (fill_of child) as [[S' content]|] eqn:E; [|done].
    destruct (String.eqb S' S) eqn:Heq.
    + apply String.eqb_eq in Heq as ->. unfold js_in.
      destruct (slots st !! S) eqn:Hl; [by rewrite Hl|].
      rewrite HS. simpl. by rewrite lookup_insert_eq.
    + apply String.eqb_neq in Heq.
      destruct (js_in S' (slots st)); [done|].
      simpl. by rewrite lookup_insert_ne.
Qed.

(** A key inherited from [Object.prototype] is never written. *)
Lemma Children_forEach_inherited S children : ∀ st,
  inherited S = true →
  slots (Children_forEach children st) !! S = slots st !! S.
Proof.
  induction children as [|child children IH]; intros st HS; [done|].
  rewrite Children_forEach_cons, IH by done.
  unfold forEach_callback.
  destruct (fill_of child) as [[S' content]|] eqn:E; [|done].
  destruct (js_in S' (slots st)) eqn:Hin; [done|]. simpl.
  apply lookup_insert_ne. intros ->.
  unfold js_in in Hin. destruct (slots st !! S); congruence.
Qed.

(** Once a key answers [in], it keeps doing so for the rest of the pass. *)
Lemma js_in_callback S st child :
  js_in S (slots st) = true → js_in S (slots (forEach_callback st child)) = true.
Proof.
  intros Hin. unfold forEach_callback.
  destruct (fill_of child) as [[S' content]|]; [|done].
  destruct (js_in S' (slots st)); [done|]. simpl.
  unfold js_in in *. destruct (decide (S' = S)) as [->|Hne].
  - by rewrite lookup_insert_eq.
  - by rewrite lookup_insert_ne.
Qed.

Lemma js_in_Children_forEach S children : ∀ st,
  js_in S (slots st) = true → js_in S (slots (Children_forEach children st)) = true.
Proof.
  induction children as [|child children IH]; intros st Hin; [done|].
  rewrite Children_forEach_cons. by apply IH, js_in_callback.
Qed.

(** Right after a Fill for [S] has been visited, [S in slots] holds. *)
Lemma js_in_after_fill S st child content :
  fill_of child = Some (S, content) →
  js_in S (slots (forEach_callback st child)) = true.
Proof.
  intros E. unfold forEach_callback. rewrite E.
  destruct (js_in S (slots st)) eqn:Hin; [done|]. simpl.
  unfold js_in. by rewrite lookup_insert_eq.
Qed.

(** A Fill whose slot name already answers [in] leaves no trace. *)
Lemma Children_forEach_drop_later S child content mid post st :
  fill_of child = Some (S, content) → js_in S (slots st) = true →
  Children_forEach (mid ++ child :: post) st = Children_forEach (mid ++ post) st.
Proof.
  intros E Hin. rewrite !Children_forEach_app, Children_forEach_cons.
  f_equal. eapply callback_skip; [done|]. by apply js_in_Children_forEach.
Qed.

(** ** The result of [useSlots] *)

Lemma useSlots_nil : useSlots [] = ∅.
Proof. reflexivity. Qed.

Lemma useSlots_nonempty children :
  children ≠ [] →
  useSlots children
  = <["rest" := RArray (List.filter untagged children)]>
      (slots (Children_forEach children st0)).
Proof.
  intros Hne. destruct children as [|child children]; [done|].
  unfold useSlots. cbn [Children_count length Nat.eqb].
  by rewrite Children_forEach_rest.
Qed.

Lemma useSlots_rest children :
  children ≠ [] →
  useSlots children !! "rest" = Some (RArray (List.filter untagged children)).
Proof. intros Hne. rewrite useSlots_nonempty by done. apply lookup_insert_eq. Qed.

Lemma useSlots_slot S children :
  children ≠ [] → S ≠ "rest" → inherited S = false →
  useSlots children !! S = first_fill S children.
Proof.
  intros Hne HS Hinh. rewrite useSlots_nonempty by done.
  rewrite lookup_insert_ne by done.
  by rewrite Children_forEach_slots.
Qed.

Lemma useSlots_inherited S children :
  inherited S = true → useSlots children !! S = None.
Proof.
  intros Hinh. destruct children as [|child children]; [done|].
  rewrite useSlots_nonempty by done.
  rewrite lookup_insert_ne by (intros <-; discriminate).
  by rewrite Children_forEach_inherited.
Qed.

Lemma first_fill_found S f content pre post :
  __SLOT_FILL__ f = Some S → first_fill S pre = None →
  first_fill S (pre ++ jsx f content :: post) = Some content.
Proof.
  intros Hf. induction pre as [|child pre IH]; simpl; intros Hpre.
  - rewrite Hf. by rewrite String.eqb_refl.
  - destruct (fill_of child) as [[S' c']|]; [|by apply IH].
    destruct (String.eqb S' S); [done|by apply IH].
Qed.

Lemma app_cons_not_nil (pre : list ReactNode) child post : pre ++ child :: post ≠ [].
Proof. by destruct pre. Qed.

(** Of a Fill only the marker of the component function is read. *)
Lemma callback_same_marker S f1 f2 content st :
  __SLOT_FILL__ f1 = Some S → __SLOT_FILL__ f2 = Some S →
  forEach_callback st (jsx f1 content) = forEach_callback st (jsx f2 content).
Proof.
  intros H1 H2. unfold forEach_callback.
  by rewrite (fill_of_jsx f1 content S), (fill_of_jsx f2 content S).
Qed.

Lemma untagged_jsx S f content :
  __SLOT_FILL__ f = Some S → untagged (jsx f content) = false.
Proof. intros Hf. unfold untagged. by rewrite (fill_of_jsx f content S). Qed.

Lemma useSlots_same_marker S f1 f2 content pre post :
  __SLOT_FILL__ f1 = Some S → __SLOT_FILL__ f2 = Some S →
  useSlots (pre ++ jsx f1 content :: post) = useSlots (pre ++ jsx f2 content :: post).
Proof.
  intros H1 H2. rewrite !useSlots_nonempty by apply app_cons_not_nil.
  rewrite !Children_forEach_app, !Children_forEach_cons.
  rewrite (callback_same_marker S f1 f2) by done.
  rewrite !List.filter_app. simpl.
  by rewrite (untagged_jsx S f1), (untagged_jsx S f2).
Qed.

(** A pass over children none of which is a Fill only fills the bucket. *)
Lemma Children_forEach_untagged children : ∀ st,
  forallb untagged children = true →
  Children_forEach children st
  = {| rest := rest st ++ children; slots := slots st |}.
Proof.
  induction children as [|child children IH]; intros st Hall.
  - simpl. rewrite app_nil_r. by destruct st.
  - simpl in Hall. apply andb_prop in Hall as [Hc Hall].
    rewrite Children_forEach_cons, IH by done.
    unfold untagged in Hc. unfold forEach_callback.
    destruct (fill_of child); [done|]. simpl. by rewrite <- app_assoc.
Qed.

Lemma useSlots_no_fills children :
  children ≠ [] → forallb untagged children = true →
  useSlots children = {["rest" := RArray children]}.
Proof.
  intros Hne Hall. destruct children as [|child children]; [done|].
  unfold useSlots. cbn [Children_count length Nat.eqb].
  by rewrite Children_forEach_untagged.
Qed.

(** ** The empty sequence *)

(** C1 (the code at the empty sequence).  The claim asks that the result
    of [useSlots] always has the key [rest], and that the empty sequence
    gives the map whose only entry is [rest], bound to the empty
    sequence.  On the empty sequence the early return of line 73 hands
    back the empty object: it has no property at all, [rest] included. *)
Theorem useSlots_empty_has_no_rest :
  useSlots [] = ∅ ∧ useSlots [] !! "rest" = None.
Proof. split; reflexivity. Qed.

(** C4 (the code at the empty sequence).  The claim asks that [rest] be
    the subsequence of untagged children, and that a sequence without
    Fill gives a result that is exactly [rest] bound to the input.  The
    empty sequence has no Fill and its untagged subsequence is empty, yet
    the result is not the object with [rest] bound to the empty array. *)
Theorem useSlots_empty_not_only_rest :
  forallb untagged [] = true
  ∧ List.filter untagged [] = []
  ∧ useSlots [] ≠ {["rest" := RArray []]}.
Proof.
  split; [reflexivity|]. split; [reflexivity|].
  intros H. apply (f_equal (λ m : gmap string ReactNode, m !! "rest")) in H.
  rewrite lookup_singleton_eq in H. discriminate H.
Qed.

(** ** The bucket [rest] *)

(** C9.  For every non-empty sequence of children the final [rest] entry
    is the bucket of untagged children, in order.  This also holds when a
    child is a Fill for the slot name "rest": its content is stored under
    [rest] during the pass (second part), and the assignment after the
    pass replaces it by the bucket, so that content is lost. *)
Theorem rest_is_bucket_even_if_tagged children :
  children ≠ [] →
  useSlots children !! "rest" = Some (RArray (List.filter untagged children))
  ∧ ∀ pre f content post,
      children = pre ++ jsx f content :: post →
      __SLOT_FILL__ f = Some "rest" →
      first_fill "rest" pre = None →
      slots (Children_forEach children st0) !! "rest" = Some content.
Proof.
  intros Hne. split; [by apply useSlots_rest|].
  intros pre f content post -> Hf Hpre.
  rewrite Children_forEach_slots by reflexivity.
  simpl. by apply first_fill_found.
Qed.

Lemma rest_is_bucket_even_if_tagged_witness :
  [jsx (createFill "rest" 3) (RString "lost"); RString "kept"] ≠ []
  ∧ useSlots [jsx (createFill "rest" 3) (RString "lost"); RString "kept"] !! "rest"
    = Some (RArray [RString "kept"])
  ∧ slots (Children_forEach
             [jsx (createFill "rest" 3) (RString "lost"); RString "kept"] st0) !! "rest"
    = Some (RString "lost").
Proof.
  assert (Hne : [jsx (createFill "rest" 3) (RString "lost"); RString "kept"] ≠ [])
    by discriminate.
  split; [exact Hne|].
  destruct (rest_is_bucket_even_if_tagged _ Hne) as [Hrest Hpass].
  split; [exact Hrest|].
  apply (Hpass [] (createFill "rest" 3) (RString "lost") [RString "kept"]);
    reflexivity.
Defined.

(** ** Named slots *)

(** C3, as stated, fails: a Fill for [header] that comes after another
    Fill for [header] is in the sequence, yet the [header] entry is the
    content of the earlier one. *)
Lemma later_fill_is_not_the_entry :
  useSlots [jsx (createFill "header" 1) (RString "A");
            jsx (createFill "header" 2) (RString "B")] !! "header"
  = Some (RString "A")
  ∧ Some (RString "A") ≠ Some (RString "B").
Proof. split; [by vm_compute|discriminate]. Qed.

(** C3, amended.  Let T be a Fill with slot name [S] and nested content
    [content], and let T be the first Fill for [S] in the sequence, with
    [S] other than the reserved key "rest" and other than the property
    names of [Object.prototype].  Then the entry for [S] is [content],
    whatever [content] is. *)
Theorem first_fill_content_is_the_entry S f content pre post :
  __SLOT_FILL__ f = Some S →
  first_fill S pre = None →
  S ≠ "rest" →
  inherited S = false →
  useSlots (pre ++ jsx f content :: post) !! S = Some content.
Proof.
  intros Hf Hpre HS Hinh.
  rewrite useSlots_slot by (done || apply app_cons_not_nil).
  by apply first_fill_found.
Qed.

Lemma first_fill_content_is_the_entry_witness :
  useSlots ([RString "x"]
            ++ jsx Footer (RArray [RString "a"; RString "b"])
            :: [jsx Header RUndefined]) !! "footer"
  = Some (RArray [RString "a"; RString "b"]).
Proof.
  apply first_fill_content_is_the_entry;
    [reflexivity | reflexivity | discriminate | reflexivity].
Defined.

(** C2, as stated, fails: two Fills for the slot name "rest"; the entry
    for "rest" is the (empty) bucket, not the content of the first. *)
Lemma first_match_loses_for_rest :
  useSlots [jsx (createFill "rest" 1) (RString "A");
            jsx (createFill "rest" 2) (RString "B")] !! "rest"
  = Some (RArray [])
  ∧ Some (RArray []) ≠ Some (RString "A").
Proof. split; [by vm_compute|discriminate]. Qed.

(** C2, amended.  First match wins for every slot name [S] other than
    the reserved key "rest" (and other than the property names of
    [Object.prototype]): when the sequence has two or more Fills for [S],
    the entry for [S] is the content of the first one in sequence order.
    The content of a later Fill for [S] is discarded: the result is the
    one obtained without that Fill. *)
Theorem first_match_wins S f1 f2 c1 c2 pre mid post :
  __SLOT_FILL__ f1 = Some S →
  __SLOT_FILL__ f2 = Some S →
  first_fill S pre = None →
  S ≠ "rest" →
  inherited S = false →
  useSlots (pre ++ jsx f1 c1 :: mid ++ jsx f2 c2 :: post) !! S = Some c1
  ∧ useSlots (pre ++ jsx f1 c1 :: mid ++ jsx f2 c2 :: post)
    = useSlots (pre ++ jsx f1 c1 :: mid ++ post).
Proof.
  intros H1 H2 Hpre HS Hinh. split.
  - rewrite useSlots_slot by (done || apply app_cons_not_nil).
    by apply first_fill_found.
  - rewrite !useSlots_nonempty by apply app_cons_not_nil.
    rewrite !Children_forEach_app, !Children_forEach_cons.
    rewrite (Children_forEach_drop_later S (jsx f2 c2) c2).
    + rewrite !List.filter_app. simpl. rewrite !List.filter_app. simpl.
      by rewrite (untagged_jsx S f2).
    + by apply fill_of_jsx.
    + apply js_in_after_fill with c1. by apply fill_of_jsx.
Qed.

Lemma first_match_wins_witness :
  useSlots ([RString "x"]
            ++ jsx Header (RString "First Header")
            :: [jsx Footer (RString "F")]
            ++ jsx (createFill "header" 9) (RString "Second Header")
            :: [RString "y"]) !! "header"
  = Some (RString "First Header")
  ∧ useSlots ([RString "x"]
              ++ jsx Header (RString "First Header")
              :: [jsx Footer (RString "F")]
              ++ jsx (createFill "header" 9) (RString "Second Header")
              :: [RString "y"])
    = useSlots ([RString "x"]
                ++ jsx Header (RString "First Header")
                :: [jsx Footer (RString "F")] ++ [RString "y"]).
Proof.
  apply first_match_wins;
    [reflexivity | reflexivity | reflexivity | discriminate | reflexivity].
Defined.

(** C10, as stated, fails: the first Fill for "rest" has no content, and
    the entry for "rest" is the bucket of untagged children, not that
    empty content. *)
Lemma empty_first_fill_for_rest_is_replaced :
  useSlots [jsx (createFill "rest" 1) RUndefined;
            RString "x";
            jsx (createFill "rest" 2) (RString "B")] !! "rest"
  = Some (RArray [RString "x"])
  ∧ Some (RArray [RString "x"]) ≠ Some RUndefined.
Proof. split; [by vm_compute|discriminate]. Qed.

(** C10, amended.  For every slot name [S] other than the reserved key
    "rest" (and other than the property names of [Object.prototype]),
    first occurrence wins by key presence, not by value: when the first
    Fill for [S] has empty content, [S] answers [in] from then on, the
    entry for [S] is that empty content, and a later Fill for [S] does
    not replace it, whatever its content. *)
Theorem empty_first_fill_still_wins S f1 f2 c1 c2 pre mid post :
  empty_content c1 = true →
  __SLOT_FILL__ f1 = Some S →
  __SLOT_FILL__ f2 = Some S →
  first_fill S pre = None →
  S ≠ "rest" →
  inherited S = false →
  js_in S (slots (Children_forEach (pre ++ [jsx f1 c1]) st0)) = true
  ∧ useSlots (pre ++ jsx f1 c1 :: mid ++ jsx f2 c2 :: post) !! S = Some c1.
Proof.
  intros _ H1 H2 Hpre HS Hinh. split.
  - rewrite Children_forEach_app. simpl.
    apply js_in_after_fill with c1. by apply fill_of_jsx.
  - rewrite useSlots_slot by (done || apply app_cons_not_nil).
    by apply first_fill_found.
Qed.

Lemma empty_first_fill_still_wins_witness :
  empty_content RUndefined = true
  ∧ js_in "header" (slots (Children_forEach ([] ++ [jsx Header RUndefined]) st0)) = true
  ∧ useSlots ([] ++ jsx Header RUndefined
              :: [RString "x"]
              ++ jsx (createFill "header" 9) (RString "Second Header")
              :: []) !! "header"
    = Some RUndefined.
Proof.
  split; [reflexivity|].
  apply (empty_first_fill_still_wins "header" Header (createFill "header" 9)
           RUndefined (RString "Second Header") [] [RString "x"] []);
    [reflexivity | reflexivity | reflexivity | reflexivity | discriminate | reflexivity].
Defined.

(** ** createFill and interchangeable Fills *)

(** C8.  For every slot name, [createFill] returns (it has no failing
    branch) a component function whose [__SLOT_FILL__] property is that
    slot name and which, called with nested content, returns the Fragment
    of exactly that content. *)
Theorem createFill_marks_and_passes_through slotName fresh :
  __SLOT_FILL__ (createFill slotName fresh) = Some slotName
  ∧ ∀ children,
      call (createFill slotName fresh) children
      = Some (RElement FragmentType children).
Proof. split; [reflexivity|]. intros children. reflexivity. Qed.

(** Two calls of [createFill] give two different function objects, also
    for the same slot name. *)
Lemma createFill_fresh_object S id1 id2 :
  id1 ≠ id2 → createFill S id1 ≠ createFill S id2.
Proof. intros Hne Heq. apply Hne. by injection Heq. Qed.

(** C7.  Two components made by [createFill] for the same slot name are
    interchangeable, although they are different objects: replacing, in
    any sequence, a Fill element of the one by a Fill element of the
    other with the same content gives the same result of [useSlots]. *)
Theorem fills_for_same_slot_interchangeable S id1 id2 content pre post :
  useSlots (pre ++ jsx (createFill S id1) content :: post)
  = useSlots (pre ++ jsx (createFill S id2) content :: post).
Proof. by apply (useSlots_same_marker S). Qed.

Example fills_interchangeable_but_distinct :
  createFill "header" 1 ≠ createFill "header" 2
  ∧ useSlots [jsx (createFill "header" 1) (RString "H"); RString "x"]
    = useSlots [jsx (createFill "header" 2) (RString "H"); RString "x"].
Proof.
  split; [by apply createFill_fresh_object|].
  apply (useSlots_same_marker "header" _ _ _ []); reflexivity.
Qed.

(** ** SlotManager *)

Lemma elem_of_constructor names slotName :
  slotName ∈ SlotManager.slots (SlotManager.constructor names) ↔ slotName ∈ names.
Proof. unfold SlotManager.constructor. simpl. apply elem_of_list_to_set. Qed.

Lemma SlotManager_createFill_member this slotName fresh :
  slotName ∈ SlotManager.slots this →
  SlotManager.createFill this slotName fresh = Return (createFill slotName fresh).
Proof. intros Hin. unfold SlotManager.createFill. by rewrite bool_decide_eq_true_2. Qed.

Lemma SlotManager_createFill_stranger this slotName fresh :
  slotName ∉ SlotManager.slots this →
  SlotManager.createFill this slotName fresh
  = Throw {| message := "Slot " +:+ dquote +:+ slotName +:+ dquote +:+ " does not exist" |}.
Proof. intros Hin. unfold SlotManager.createFill. by rewrite bool_decide_eq_false_2. Qed.

(** C6.  [SlotManager.createFill] throws exactly when the slot name is
    not among the names the manager was constructed with; the message of
    the error contains the slot name (between double quotes); and when it
    does not throw it returns what the plain [createFill] returns. *)
Theorem SlotManager_createFill_checks_membership names slotName fresh :
  ((∃ e, SlotManager.createFill (SlotManager.constructor names) slotName fresh = Throw e)
   ↔ slotName ∉ names)
  ∧ (∀ e, SlotManager.createFill (SlotManager.constructor names) slotName fresh = Throw e →
       message e = "Slot " +:+ dquote +:+ slotName +:+ dquote +:+ " does not exist"
       ∧ ∃ before after, message e = before +:+ slotName +:+ after)
  ∧ (slotName ∈ names →
       SlotManager.createFill (SlotManager.constructor names) slotName fresh
       = Return (createFill slotName fresh)).
Proof.
  destruct (decide (slotName ∈ names)) as [Hin|Hout].
  - pose proof Hin as Hm. apply elem_of_constructor in Hm.
    rewrite (SlotManager_createFill_member _ _ _ Hm).
    split; [|split]; [split| |done].
    + intros [e He]. discriminate He.
    + done.
    + intros e He. discriminate He.
  - assert (Hm : slotName ∉ SlotManager.slots (SlotManager.constructor names))
      by (by rewrite elem_of_constructor).
    rewrite (SlotManager_createFill_stranger _ _ _ Hm).
    split; [|split]; [split| |done].
    + done.
    + intros _. eauto.
    + intros e [= <-]. split; [done|]. simpl.
      exists ("Slot " +:+ dquote), (dquote +:+ " does not exist").
      reflexivity.
Qed.

Example test_invalid_slot :
  SlotManager.createFill (SlotManager.constructor ["header"; "footer"]) "body" 1
  = Throw {| message := "Slot " +:+ dquote +:+ "body" +:+ dquote +:+ " does not exist" |}.
Proof. by vm_compute. Qed.

(** C5.  [SlotManager.useSlots] is the standalone [useSlots]: for every
    manager and every sequence the two results are the same object
    content.  In particular nothing is filtered: a first Fill for a slot
    name outside the manager's set still gets its entry. *)
Theorem SlotManager_useSlots_is_useSlots this children :
  SlotManager.useSlots this children = useSlots children
  ∧ ∀ S f content pre post,
      children = pre ++ jsx f content :: post →
      S ∉ SlotManager.slots this →
      __SLOT_FILL__ f = Some S →
      first_fill S pre = None →
      S ≠ "rest" →
      inherited S = false →
      SlotManager.useSlots this children !! S = Some content.
Proof.
  split; [reflexivity|].
  intros S f content pre post -> _ Hf Hpre HS Hinh.
  unfold SlotManager.useSlots.
  rewrite useSlots_slot by (done || apply app_cons_not_nil).
  by apply first_fill_found.
Qed.

Example test_unregistered_slot_kept :
  SlotManager.useSlots (SlotManager.constructor ["a"; "b"])
    [jsx (createFill "c" 1) (RString "C"); jsx (createFill "a" 2) (RString "A")]
  = <["rest" := RArray []]> (<["a" := RString "A"]> (<["c" := RString "C"]> ∅)).
Proof. by vm_compute. Qed.

(** ** Further properties of the pass *)

(** A non-empty sequence without any Fill gives the object whose only
    property is [rest], bound to the sequence itself. *)
Theorem no_fill_gives_only_rest children :
  children ≠ [] →
  forallb untagged children = true →
  useSlots children = {["rest" := RArray children]}.
Proof. apply useSlots_no_fills. Qed.

Lemma no_fill_gives_only_rest_witness :
  useSlots [RString "a"; RElement (HostType "div") (RString "Main Content"); RNull]
  = {["rest" := RArray [RString "a";
                        RElement (HostType "div") (RString "Main Content");
                        RNull]]}.
Proof. apply no_fill_gives_only_rest; [discriminate | reflexivity]. Defined.

(** A Fill whose slot name is a property name of [Object.prototype]
    never gets an entry: the test [slotName in slots] of line 89 already
    holds on the fresh object, so reading that key of the result gives
    the inherited built-in and the content of the Fill is lost. *)
Theorem inherited_name_gets_no_entry S f content pre post :
  inherited S = true →
  __SLOT_FILL__ f = Some S →
  useSlots (pre ++ jsx f content :: post) !! S = None
  ∧ js_get (useSlots (pre ++ jsx f content :: post)) S = JSBuiltin S.
Proof.
  intros Hinh _.
  assert (Hnone : useSlots (pre ++ jsx f content :: post) !! S = None)
    by (by apply useSlots_inherited).
  split; [done|]. unfold js_get. by rewrite Hnone, Hinh.
Qed.

Lemma inherited_name_gets_no_entry_witness :
  useSlots ([] ++ jsx (createFill "toString" 1) (RString "T") :: []) !! "toString" = None
  ∧ js_get (useSlots ([] ++ jsx (createFill "toString" 1) (RString "T") :: []))
      "toString"
    = JSBuiltin "toString".
Proof. apply inherited_name_gets_no_entry; reflexivity. Defined.

(** ** More on [first_fill] and the lookup of a named slot *)

Lemma first_fill_app S l1 l2 :
  first_fill S (l1 ++ l2)
  = match first_fill S l1 with
    | Some c => Some c
    | None => first_fill S l2
    end.
Proof.
  induction l1 as [|child l1 IH]; [done|]. simpl.
  destruct (fill_of child) as [[S' c']|]; [|done].
  by destruct (String.eqb S' S).
Qed.

Lemma first_fill_inv S children : ∀ content,
  first_fill S children = Some content →
  ∃ pre f post,
    children = pre ++ jsx f content :: post
    ∧ __SLOT_FILL__ f = Some S
    ∧ first_fill S pre = None.
Proof.
  induction children as [|child children IH]; intros content Hff; [done|].
  simpl in Hff.
  destruct (fill_of child) as [[S' c']|] eqn:E.
  - destruct (String.eqb S' S) eqn:Heq.
    + apply String.eqb_eq in Heq as ->. injection Hff as ->.
      destruct child as [| | | | |[|f| |] pc|]; try discriminate E.
      simpl in E. destruct (__SLOT_FILL__ f) eqn:Hf; [|discriminate E].
      injection E as -> ->. by exists [], f, children.
    + destruct (IH _ Hff) as (pre & f & post & -> & Hf & Hpre).
      exists (child :: pre), f, post. split; [done|]. split; [done|].
      simpl. by rewrite E, Heq.
  - destruct (IH _ Hff) as (pre & f & post & -> & Hf & Hpre).
    exists (child :: pre), f, post. split; [done|]. split; [done|].
    simpl. by rewrite E.
Qed.

(** Every key but [rest], on every sequence, the empty one included. *)
Lemma useSlots_named S children :
  S ≠ "rest" →
  useSlots children !! S = if inherited S then None else first_fill S children.
Proof.
  intros HS. destruct (inherited S) eqn:Hinh.
  - by apply useSlots_inherited.
  - destruct children as [|child children]; [done|].
    by apply useSlots_slot.
Qed.

Lemma first_fill_jsx_cons S S' f content children :
  __SLOT_FILL__ f = Some S' →
  first_fill S (jsx f content :: children)
  = if String.eqb S' S then Some content else first_fill S children.
Proof. intros Hf. cbn [first_fill]. by rewrite (fill_of_jsx f content S'). Qed.

Lemma first_fill_untagged_cons S child children :
  untagged child = true →
  first_fill S (child :: children) = first_fill S children.
Proof.
  unfold untagged. intros Hu. simpl. by destruct (fill_of child).
Qed.

Lemma filter_untagged_forallb children :
  forallb untagged (List.filter untagged children) = true.
Proof.
  induction children as [|child children IH]; [done|]. simpl.
  destruct (untagged child) eqn:E; [|done]. simpl. by rewrite E.
Qed.

Lemma js_get_destructure (o : gmap string ReactNode) k :
  inherited k = false → js_get o k = JSNode (destructure o k).
Proof.
  intros Hinh. unfold js_get, destructure.
  destruct (o !! k); [done|]. by rewrite Hinh.
Qed.

(** ** Which keys the result has *)

(** A slot name for which the sequence has no Fill has no entry, on every
    sequence (the empty one included); read through the result object it
    is [undefined], unless [Object.prototype] has a property so named. *)
Theorem slot_without_fill_is_absent S children :
  first_fill S children = None →
  S ≠ "rest" →
  useSlots children !! S = None
  ∧ (inherited S = false → js_get (useSlots children) S = JSNode RUndefined).
Proof.
  intros Hff HS.
  assert (Hnone : useSlots children !! S = None).
  { rewrite useSlots_named by done. by destruct (inherited S). }
  split; [done|]. intros Hinh. unfold js_get. by rewrite Hnone, Hinh.
Qed.

Lemma slot_without_fill_is_absent_witness :
  useSlots [RElement (HostType "div") (RString "Main Content")] !! "header" = None
  ∧ (inherited "header" = false →
     js_get (useSlots [RElement (HostType "div") (RString "Main Content")]) "header"
     = JSNode RUndefined).
Proof. apply slot_without_fill_is_absent; [reflexivity | discriminate]. Defined.

(** Every entry other than [rest] comes from the input: its value is the
    nested content of a Fill of the sequence that carries that slot name,
    and no Fill for that name comes before it. *)
Theorem entry_comes_from_first_fill S content children :
  useSlots children !! S = Some content →
  S ≠ "rest" →
  ∃ pre f post,
    children = pre ++ jsx f content :: post
    ∧ __SLOT_FILL__ f = Some S
    ∧ first_fill S pre = None.
Proof.
  intros Hl HS. rewrite useSlots_named in Hl by done.
  destruct (inherited S); [discriminate Hl|].
  by apply first_fill_inv.
Qed.

Lemma entry_comes_from_first_fill_witness :
  ∃ pre f post,
    [RString "x"; jsx Footer (RString "F"); jsx Header (RString "H")]
    = pre ++ jsx f (RString "F") :: post
    ∧ __SLOT_FILL__ f = Some "footer"
    ∧ first_fill "footer" pre = None.
Proof.
  apply entry_comes_from_first_fill; [by vm_compute | discriminate].
Defined.

(** The result lacks the key [rest] exactly when there are no children. *)
Theorem rest_absent_iff_no_children children :
  useSlots children !! "rest" = None ↔ children = [].
Proof.
  split.
  - intros Hl. destruct children as [|child children]; [done|].
    rewrite useSlots_rest in Hl by done. discriminate Hl.
  - by intros ->.
Qed.

(** ** Fills and other children do not interfere *)

(** A child that is not a Fill, put anywhere in the sequence, changes no
    named slot; it only joins [rest], at its place among the untagged
    children. *)
Theorem untagged_child_only_joins_rest x pre post :
  untagged x = true →
  (∀ S, S ≠ "rest" →
        useSlots (pre ++ x :: post) !! S = useSlots (pre ++ post) !! S)
  ∧ useSlots (pre ++ x :: post) !! "rest"
    = Some (RArray (List.filter untagged pre ++ x :: List.filter untagged post)).
Proof.
  intros Hx. split.
  - intros S HS. rewrite !useSlots_named by done.
    destruct (inherited S); [done|]. rewrite !first_fill_app.
    by rewrite first_fill_untagged_cons.
  - rewrite useSlots_rest by apply app_cons_not_nil.
    rewrite List.filter_app. simpl. by rewrite Hx.
Qed.

Lemma untagged_child_only_joins_rest_witness :
  (∀ S, S ≠ "rest" →
        useSlots ([jsx Header (RString "H")] ++ RString "x" :: [jsx Footer (RString "F")]) !! S
        = useSlots ([jsx Header (RString "H")] ++ [jsx Footer (RString "F")]) !! S)
  ∧ useSlots ([jsx Header (RString "H")] ++ RString "x" :: [jsx Footer (RString "F")]) !! "rest"
    = Some (RArray (List.filter untagged [jsx Header (RString "H")]
                    ++ RString "x" :: List.filter untagged [jsx Footer (RString "F")])).
Proof. apply untagged_child_only_joins_rest. reflexivity. Defined.

(** A Fill never shows in [rest]: with or without it, the bucket of a
    sequence that has other children is the same. *)
Theorem fill_never_joins_rest S f content pre post :
  __SLOT_FILL__ f = Some S →
  pre ++ post ≠ [] →
  useSlots (pre ++ jsx f content :: post) !! "rest"
  = useSlots (pre ++ post) !! "rest".
Proof.
  intros Hf Hne. rewrite !useSlots_rest by (done || apply app_cons_not_nil).
  rewrite !List.filter_app. simpl. by rewrite (untagged_jsx S).
Qed.

Lemma fill_never_joins_rest_witness :
  useSlots ([RString "x"] ++ jsx Header (RString "H") :: [RString "y"]) !! "rest"
  = useSlots ([RString "x"] ++ [RString "y"]) !! "rest".
Proof.
  apply (fill_never_joins_rest "header"); [reflexivity | discriminate].
Defined.

(** Two neighbouring children can be exchanged without changing the
    result, unless both are untagged (their order shows in [rest]) or
    both are Fills for the same slot (the first one wins). *)
Theorem independent_children_commute a b pre post :
  independent a b = true →
  useSlots (pre ++ a :: b :: post) = useSlots (pre ++ b :: a :: post).
Proof.
  intros Hab. apply map_eq. intros k.
  destruct (decide (k = "rest")) as [->|Hk].
  - rewrite !useSlots_rest by apply app_cons_not_nil.
    rewrite !List.filter_app. simpl. unfold independent in Hab. unfold untagged.
    destruct (fill_of a) as [[s1 c1]|], (fill_of b) as [[s2 c2]|]; done.
  - rewrite !useSlots_named by done.
    destruct (inherited k); [done|]. rewrite !first_fill_app.
    destruct (first_fill k pre); [done|]. simpl.
    unfold independent in Hab.
    destruct (fill_of a) as [[s1 c1]|], (fill_of b) as [[s2 c2]|]; try done.
    destruct (String.eqb s1 k) eqn:E1, (String.eqb s2 k) eqn:E2; try done.
    apply String.eqb_eq in E1 as ->. apply String.eqb_eq in E2 as ->.
    by rewrite String.eqb_refl in Hab.
Qed.

Lemma independent_children_commute_witness :
  useSlots ([RString "x"] ++ jsx Header (RString "H") :: jsx Footer (RString "F") :: [])
  = useSlots ([RString "x"] ++ jsx Footer (RString "F") :: jsx Header (RString "H") :: []).
Proof. apply independent_children_commute. reflexivity. Defined.

(** ** Sequences put together, and the bucket classified again *)

(** The result for a concatenation is the union of the two results in
    which the left one wins, with [rest] bound to the two buckets one
    after the other. *)
Theorem useSlots_app l1 l2 :
  l1 ++ l2 ≠ [] →
  useSlots (l1 ++ l2)
  = <["rest" := RArray (List.filter untagged l1 ++ List.filter untagged l2)]>
      (useSlots l1 ∪ useSlots l2).
Proof.
  intros Hne. apply map_eq. intros k.
  destruct (decide (k = "rest")) as [->|Hk].
  - rewrite lookup_insert_eq, useSlots_rest by done.
    by rewrite List.filter_app.
  - rewrite lookup_insert_ne by done.
    rewrite lookup_union, !useSlots_named by done.
    destruct (inherited k); [done|]. rewrite first_fill_app.
    by destruct (first_fill k l1), (first_fill k l2).
Qed.

Lemma useSlots_app_witness :
  useSlots ([jsx Header (RString "A"); RString "x"]
            ++ [RString "y"; jsx Header (RString "B"); jsx Footer (RString "F")])
  = <["rest" := RArray (List.filter untagged [jsx Header (RString "A"); RString "x"]
                        ++ List.filter untagged
                             [RString "y"; jsx Header (RString "B"); jsx Footer (RString "F")])]>
      (useSlots [jsx Header (RString "A"); RString "x"]
       ∪ useSlots [RString "y"; jsx Header (RString "B"); jsx Footer (RString "F")]).
Proof. apply useSlots_app. discriminate. Defined.

(** The bucket holds no Fill, so classifying it again changes nothing:
    a non-empty bucket gives the object whose only property is [rest],
    bound to the same bucket. *)
Theorem rest_bucket_is_stable children bucket :
  useSlots children !! "rest" = Some (RArray bucket) →
  forallb untagged bucket = true
  ∧ (bucket ≠ [] → useSlots bucket = {["rest" := RArray bucket]}).
Proof.
  intros Hl.
  assert (Hne : children ≠ []) by (intros ->; discriminate Hl).
  rewrite useSlots_rest in Hl by done. injection Hl as <-.
  assert (Hall : forallb untagged (List.filter untagged children) = true)
    by apply filter_untagged_forallb.
  split; [done|]. intros Hb. by apply useSlots_no_fills.
Qed.

Lemma rest_bucket_is_stable_witness :
  forallb untagged [RString "x"; RNumber 3] = true
  ∧ ([RString "x"; RNumber 3] ≠ [] →
     useSlots [RString "x"; RNumber 3] = {["rest" := RArray [RString "x"; RNumber 3]]}).
Proof.
  apply (rest_bucket_is_stable
           [RString "x"; jsx Header (RString "H"); RNumber 3]).
  by vm_compute.
Defined.

(** Only the children themselves are looked at.  A Fill wrapped in an
    element whose type is not a function (a host element, a Fragment) is
    not classified: the wrapper goes to [rest] as it is and the slot of
    the wrapped Fill gets nothing from it. *)
Theorem wrapped_fill_is_not_classified ty S f content pre post :
  (∀ g, ty ≠ FunctionType g) →
  __SLOT_FILL__ f = Some S →
  S ≠ "rest" →
  useSlots (pre ++ RElement ty (jsx f content) :: post) !! S
  = useSlots (pre ++ post) !! S
  ∧ useSlots (pre ++ RElement ty (jsx f content) :: post) !! "rest"
    = Some (RArray (List.filter untagged pre
                    ++ RElement ty (jsx f content) :: List.filter untagged post)).
Proof.
  intros Hty _ HS.
  assert (Hu : untagged (RElement ty (jsx f content)) = true).
  { destruct ty as [tag|g| |n]; try done. by destruct (Hty g). }
  split.
  - rewrite !useSlots_named by done.
    destruct (inherited S); [done|]. rewrite !first_fill_app.
    by rewrite first_fill_untagged_cons.
  - rewrite useSlots_rest by apply app_cons_not_nil.
    rewrite List.filter_app. simpl. by rewrite Hu.
Qed.

Lemma wrapped_fill_is_not_classified_witness :
  useSlots ([] ++ RElement FragmentType (jsx Header (RString "H")) :: []) !! "header"
  = useSlots ([] ++ []) !! "header"
  ∧ useSlots ([] ++ RElement FragmentType (jsx Header (RString "H")) :: []) !! "rest"
    = Some (RArray (List.filter untagged []
                    ++ RElement FragmentType (jsx Header (RString "H"))
                    :: List.filter untagged [])).
Proof.
  apply wrapped_fill_is_not_classified; [discriminate | reflexivity | discriminate].
Defined.

(** ** More on SlotManager *)

Lemma list_ascii_of_string_append a b :
  String.list_ascii_of_string (a +:+ b) = String.list_ascii_of_string a ++ String.list_ascii_of_string b.
Proof. induction a as [|c a IH]; [done|]. simpl. by rewrite IH. Qed.

Lemma list_ascii_of_string_inj a b :
  String.list_ascii_of_string a = String.list_ascii_of_string b → a = b.
Proof.
  intros H. rewrite <- (String.string_of_list_ascii_of_string a).
  rewrite <- (String.string_of_list_ascii_of_string b). by rewrite H.
Qed.

Lemma append_cancel_r a b s : a +:+ s = b +:+ s → a = b.
Proof.
  intros H. apply list_ascii_of_string_inj.
  apply (f_equal String.list_ascii_of_string) in H.
  rewrite !list_ascii_of_string_append in H.
  by apply app_inv_tail in H.
Qed.

Lemma append_cancel_l s a b : s +:+ a = s +:+ b → a = b.
Proof.
  induction s as [|c s IH]; [done|]. simpl. intros H. injection H as H. by apply IH.
Qed.

(** Only the set of the names given to the constructor matters: two
    lists with the same members, in any order and with any repetitions,
    give managers whose [createFill] answers alike on every name. *)
Theorem SlotManager_depends_on_name_set l1 l2 slotName fresh :
  (∀ x, x ∈ l1 ↔ x ∈ l2) →
  SlotManager.createFill (SlotManager.constructor l1) slotName fresh
  = SlotManager.createFill (SlotManager.constructor l2) slotName fresh.
Proof.
  intros Hsame. unfold SlotManager.createFill.
  destruct (decide (slotName ∈ l1)) as [Hin|Hout].
  - rewrite !bool_decide_eq_true_2; [done| |]; rewrite elem_of_constructor;
      [by apply Hsame | done].
  - rewrite !bool_decide_eq_false_2; [done| |]; rewrite elem_of_constructor;
      [by rewrite <- Hsame | done].
Qed.

Lemma SlotManager_depends_on_name_set_witness :
  SlotManager.createFill (SlotManager.constructor ["a"; "b"; "a"]) "b" 1
  = SlotManager.createFill (SlotManager.constructor ["b"; "a"]) "b" 1.
Proof.
  apply SlotManager_depends_on_name_set.
  intros x. rewrite !elem_of_cons, !elem_of_nil. tauto.
Defined.

(** A Fill made through a manager for one of its names is classified
    under that name by the manager's [useSlots]: the entry is the content
    given to the first such Fill.  (The name must not be "rest" nor a
    property name of [Object.prototype].) *)
Theorem registered_fill_reaches_its_slot names S fresh content pre post :
  S ∈ names →
  S ≠ "rest" →
  inherited S = false →
  first_fill S pre = None →
  ∃ f,
    SlotManager.createFill (SlotManager.constructor names) S fresh = Return f
    ∧ SlotManager.useSlots (SlotManager.constructor names)
        (pre ++ jsx f content :: post) !! S = Some content.
Proof.
  intros Hin HS Hinh Hpre. exists (createFill S fresh). split.
  - apply SlotManager_createFill_member. by apply elem_of_constructor.
  - unfold SlotManager.useSlots.
    rewrite useSlots_slot by (done || apply app_cons_not_nil).
    by apply first_fill_found.
Qed.

Lemma registered_fill_reaches_its_slot_witness :
  ∃ f,
    SlotManager.createFill (SlotManager.constructor ["a"; "b"]) "a" 5 = Return f
    ∧ SlotManager.useSlots (SlotManager.constructor ["a"; "b"])
        ([RString "x"] ++ jsx f (RString "A") :: [RString "y"]) !! "a"
      = Some (RString "A").
Proof.
  apply registered_fill_reaches_its_slot;
    [apply list_elem_of_here | discriminate | reflexivity | reflexivity].
Defined.

(** The message of the error names the rejected slot without ambiguity:
    two rejections with the same message are rejections of the same
    name. *)
Theorem error_message_determines_slot_name this1 this2 a b fresh1 fresh2 e1 e2 :
  SlotManager.createFill this1 a fresh1 = Throw e1 →
  SlotManager.createFill this2 b fresh2 = Throw e2 →
  message e1 = message e2 →
  a = b.
Proof.
  unfold SlotManager.createFill. intros H1 H2 Hm.
  destruct (bool_decide (a ∈ SlotManager.slots this1)); [discriminate H1|].
  destruct (bool_decide (b ∈ SlotManager.slots this2)); [discriminate H2|].
  injection H1 as <-. injection H2 as <-. cbn [message] in Hm.
  apply (append_cancel_l "Slot ") in Hm.
  apply (append_cancel_l dquote) in Hm.
  by apply append_cancel_r in Hm.
Qed.

Lemma error_message_determines_slot_name_witness : "body" = "body".
Proof.
  apply (error_message_determines_slot_name
           (SlotManager.constructor ["header"; "footer"])
           (SlotManager.constructor [])
           "body" "body" 1 2
           {| message := "Slot " +:+ dquote +:+ "body" +:+ dquote +:+ " does not exist" |}
           {| message := "Slot " +:+ dquote +:+ "body" +:+ dquote +:+ " does not exist" |});
    by vm_compute.
Defined.

(** A manager does not refuse the names that [useSlots] cannot serve:
    for "rest", or a property name of [Object.prototype], listed at
    construction, [createFill] returns a Fill without error, yet the
    result of [useSlots] is the same whatever content that Fill is
    given. *)
Theorem registered_reserved_name_loses_content names S fresh :
  S ∈ names →
  S = "rest" ∨ inherited S = true →
  ∃ f,
    SlotManager.createFill (SlotManager.constructor names) S fresh = Return f
    ∧ ∀ pre post c c',
        SlotManager.useSlots (SlotManager.constructor names) (pre ++ jsx f c :: post)
        = SlotManager.useSlots (SlotManager.constructor names) (pre ++ jsx f c' :: post).
Proof.
  intros Hin Hres. exists (createFill S fresh). split.
  { apply SlotManager_createFill_member. by apply elem_of_constructor. }
  intros pre post c c'. unfold SlotManager.useSlots.
  apply map_eq. intros k. destruct (decide (k = "rest")) as [->|Hk].
  - rewrite !useSlots_rest by apply app_cons_not_nil.
    by rewrite !List.filter_app.
  - rewrite !useSlots_named by done.
    destruct (inherited k) eqn:Hinh; [done|]. rewrite !first_fill_app.
    destruct (first_fill k pre); [done|].
    rewrite !(first_fill_jsx_cons k S) by done.
    destruct (String.eqb S k) eqn:E; [|done].
    apply String.eqb_eq in E as ->.
    destruct Hres as [->|Hres]; [done|congruence].
Qed.

Lemma registered_reserved_name_loses_content_witness :
  ∃ f,
    SlotManager.createFill (SlotManager.constructor ["rest"; "header"]) "rest" 4 = Return f
    ∧ ∀ pre post c c',
        SlotManager.useSlots (SlotManager.constructor ["rest"; "header"])
          (pre ++ jsx f c :: post)
        = SlotManager.useSlots (SlotManager.constructor ["rest"; "header"])
            (pre ++ jsx f c' :: post).
Proof.
  apply registered_reserved_name_loses_content;
    [apply list_elem_of_here | by left].
Defined.

(** ** The components of the test suite *)

Lemma destructure_named S children :
  S ≠ "rest" → inherited S = false →
  destructure (useSlots children) S = default RUndefined (first_fill S children).
Proof.
  intros HS Hinh. unfold destructure. by rewrite useSlots_named, Hinh.
Qed.

Lemma destructure_rest children :
  destructure (useSlots children) "rest"
  = match children with
    | [] => RUndefined
    | _ :: _ => RArray (List.filter untagged children)
    end.
Proof.
  unfold destructure. destruct children as [|child children]; [done|].
  by rewrite useSlots_rest.
Qed.

(** What [Layout] puts in its three regions, for every sequence of
    children: the content of the first [header] Fill, the untagged
    children in order, the content of the first [footer] Fill.  A region
    whose slot has no Fill gets [undefined], and so does the middle
    region when there are no children at all. *)
Theorem Layout_regions children :
  Layout children
  = RElement (HostType "div")
      (RArray [ RElement (HostType "header")
                  (default RUndefined (first_fill "header" children));
                RElement (HostType "main")
                  match children with
                  | [] => RUndefined
                  | _ :: _ => RArray (List.filter untagged children)
                  end;
                RElement (HostType "footer")
                  (default RUndefined (first_fill "footer" children)) ]).
Proof.
  unfold Layout. cbv zeta.
  rewrite (destructure_named "header"), (destructure_named "footer")
    by (discriminate || reflexivity).
  by rewrite destructure_rest.
Qed.

Example test_Layout :
  Layout [ jsx Header (RElement (HostType "h1") (RString "Header Content"));
           RElement (HostType "div") (RString "Main Content");
           jsx Footer (RElement (HostType "p") (RString "Footer Content")) ]
  = RElement (HostType "div")
      (RArray [ RElement (HostType "header")
                  (RElement (HostType "h1") (RString "Header Content"));
                RElement (HostType "main")
                  (RArray [RElement (HostType "div") (RString "Main Content")]);
                RElement (HostType "footer")
                  (RElement (HostType "p") (RString "Footer Content")) ]).
Proof. by vm_compute. Qed.

(** What [Card] puts in its four regions, for every manager and every
    sequence of children.  The manager plays no part: a [body] Fill is
    placed also when the manager does not list [body]. *)
Theorem Card_regions manager children :
  Card manager children
  = RElement (HostType "div")
      (RArray [ RElement (HostType "div")
                  (default RUndefined (first_fill "header" children));
                RElement (HostType "div")
                  (default RUndefined (first_fill "body" children));
                RElement (HostType "div")
                  match children with
                  | [] => RUndefined
                  | _ :: _ => RArray (List.filter untagged children)
                  end;
                RElement (HostType "div")
                  (default RUndefined (first_fill "footer" children)) ]).
Proof.
  unfold Card, SlotManager.useSlots. cbv zeta.
  rewrite (destructure_named "header"), (destructure_named "body"),
    (destructure_named "footer") by (discriminate || reflexivity).
  by rewrite destructure_rest.
Qed.
